(** * Together chat provider plugin: model discovery and credential binding

    A shallow embedding of [lwe_plugin_provider_chat_together/plugin.py]:
    the client adapter [ChatTogether] and the provider descriptor
    [ProviderChatTogether], followed by the properties of model discovery,
    of the credential checks and of the customization schema. *)

From Stdlib Require Import ZArith List Bool Lia.
From stdpp Require Import base option list strings gmap.

Local Open Scope Z_scope.

(** ** Python values

    What [response.json()] and the host configuration hand to the plugin:
    [None], booleans, integers, strings, lists and dictionaries.  A
    dictionary keeps its items in insertion order.  Floating-point numbers
    are left out of the value domain. *)

#[local] Set Warnings "-register-all".

Inductive pyval : Type :=
| PNone
| PBool (b : bool)
| PInt (n : Z)
| PStr (s : string)
| PList (items : list pyval)
| PDict (entries : list (pyval * pyval)).

(** Reasons for a [TypeError] in the operations the plugin performs. *)
Inductive type_error : Type :=
| NotIterable
| NotSubscriptable
| BadIndex
| Unhashable.

(** Exceptions.  [RequestException] stands for
    [requests.exceptions.RequestException] and all its subclasses; every
    exception that has a message carries [str(e)]. *)
Inductive exn : Type :=
| ValueError (msg : string)
| KeyError (key : string)
| TypeError (why : type_error)
| AttributeError (attr : string)
| RequestException (msg : string).

Inductive result (A : Type) : Type :=
| Ok (a : A)
| Raise (e : exn).
Arguments Ok {A} a.
Arguments Raise {A} e.

#[global] Instance result_ret : MRet result := fun A a => Ok a.
#[global] Instance result_bind : MBind result := fun A B f m =>
  match m with
  | Ok a => f a
  | Raise e => Raise e
  end.

#[global] Instance result_fmap : FMap result := fun A B f m =>
  match m with
  | Ok a => Ok (f a)
  | Raise e => Raise e
  end.

Definition is_ok {A} (r : result A) : bool :=
  match r with Ok _ => true | Raise _ => false end.

(** Truth value of a Python object ([bool(v)]). *)
Definition truthy (v : pyval) : bool :=
  match v with
  | PNone => false
  | PBool b => b
  | PInt n => negb (n =? 0)
  | PStr s => negb (String.eqb s "")
  | PList items => match items with [] => false | _ => true end
  | PDict entries => match entries with [] => false | _ => true end
  end.

(** [v == s] for a string literal [s]: only a string compares equal. *)
Definition eq_str (v : pyval) (s : string) : bool :=
  match v with
  | PStr t => String.eqb t s
  | _ => false
  end.

(** Objects that can be dictionary keys. *)
Definition hashable (v : pyval) : bool :=
  match v with
  | PList _ | PDict _ => false
  | _ => true
  end.

(** Equality of dictionary keys: [True == 1] and [False == 0]. *)
Definition key_eqb (a b : pyval) : bool :=
  match a, b with
  | PNone, PNone => true
  | PBool x, PBool y => Bool.eqb x y
  | PBool x, PInt n | PInt n, PBool x => n =? (if x then 1 else 0)
  | PInt n, PInt m => n =? m
  | PStr s, PStr t => String.eqb s t
  | _, _ => false
  end.

Fixpoint dict_get (d : list (pyval * pyval)) (k : pyval) : option pyval :=
  match d with
  | [] => None
  | (k', v) :: rest => if key_eqb k' k then Some v else dict_get rest k
  end.

(** [d[k] = v]: an existing key keeps its place and gets the new value, a
    new key goes last. *)
Fixpoint dict_setitem (d : list (pyval * pyval)) (k v : pyval)
  : list (pyval * pyval) :=
  match d with
  | [] => [(k, v)]
  | (k', v') :: rest =>
      if key_eqb k' k then (k', v) :: rest
      else (k', v') :: dict_setitem rest k v
  end.

(** [obj[key]] with a string literal as subscript. *)
Definition getitem (obj : pyval) (key : string) : result pyval :=
  match obj with
  | PDict entries =>
      match dict_get entries (PStr key) with
      | Some v => Ok v
      | None => Raise (KeyError key)
      end
  | PList _ | PStr _ => Raise (TypeError BadIndex)
  | PNone | PBool _ | PInt _ => Raise (TypeError NotSubscriptable)
  end.

Fixpoint chars (s : string) : list pyval :=
  match s with
  | EmptyString => []
  | String c rest => PStr (String c EmptyString) :: chars rest
  end.

(** The items a [for] loop draws from an object. *)
Definition py_iter (obj : pyval) : result (list pyval) :=
  match obj with
  | PList items => Ok items
  | PDict entries => Ok (map fst entries)
  | PStr s => Ok (chars s)
  | PNone | PBool _ | PInt _ => Raise (TypeError NotIterable)
  end.

(** ** The outside world

    The process environment and the model-listing endpoint.  A response
    carries its status, the text of the [HTTPError] that
    [raise_for_status] builds for it, and what [response.json()] gives. *)

Record response : Type := {
  status_code : Z;
  http_error_msg : string;
  json : result pyval
}.

Record world : Type := {
  environ : gmap string string;
  transport : string -> list (string * string) -> result response
}.

Inductive event : Type :=
| EnvRead (name : string)
| HttpGet (url : string) (headers : list (string * string)).

(** Computations read the world, log what they do to it, and return or
    raise. *)
Definition M (A : Type) : Type := world -> list event -> result A * list event.

Definition ret {A} (a : A) : M A := fun _ tr => (Ok a, tr).
Definition raise {A} (e : exn) : M A := fun _ tr => (Raise e, tr).
Definition lift {A} (r : result A) : M A := fun _ tr => (r, tr).
Definition bind {A B} (m : M A) (k : A -> M B) : M B := fun w tr =>
  match m w tr with
  | (Ok a, tr') => k a w tr'
  | (Raise e, tr') => (Raise e, tr')
  end.

Notation "'let*' x ':=' m 'in' k" := (bind m (fun x => k))
  (at level 10, x name, m at level 100, k at level 200).

(** [try: body except requests.exceptions.RequestException as e: handler] *)
Definition try_except_RequestException {A} (body : M A)
  (handler : string -> M A) : M A := fun w tr =>
  match body w tr with
  | (Raise (RequestException msg), tr') => handler msg w tr'
  | other => other
  end.

(** [os.getenv(name)] *)
Definition os_getenv (name : string) : M (option string) := fun w tr =>
  (Ok (environ w !! name), tr ++ [EnvRead name]).

(** [os.environ[name]] *)
Definition os_environ_getitem (name : string) : M string := fun w tr =>
  (match environ w !! name with
   | Some v => Ok v
   | None => Raise (KeyError name)
   end, tr ++ [EnvRead name]).

(** [requests.get(url, headers=headers)] *)
Definition requests_get (url : string) (headers : list (string * string))
  : M response := fun w tr =>
  (transport w url headers, tr ++ [HttpGet url headers]).

(** [response.raise_for_status()]: statuses 400 to 599 raise. *)
Definition raise_for_status (r : response) : result unit :=
  if (400 <=? status_code r) && (status_code r <? 600)
  then Raise (RequestException (http_error_msg r))
  else Ok tt.

(** ** The plugin *)

Definition TOGETHER_API_BASE : string := "https://api.together.xyz/v1".
Definition TOGETHER_DEFAULT_MODEL : string := "meta-llama/Llama-3-8b-chat-hf".

(** The dictionary comprehension of [fetch_models]:
    [{model['id']: {'max_tokens': model['context_length']}
      for model in models_list if model['type'] == 'chat'}],
    run over the items still to come with the dictionary built so far. *)
Fixpoint models_comprehension (acc : list (pyval * pyval))
  (items : list pyval) : result (list (pyval * pyval)) :=
  match items with
  | [] => Ok acc
  | model :: rest =>
      ty ← getitem model "type";
      if eq_str ty "chat" then
        k ← getitem model "id";
        c ← getitem model "context_length";
        if hashable k
        then models_comprehension
               (dict_setitem acc k (PDict [(PStr "max_tokens", c)])) rest
        else Raise (TypeError Unhashable)
      else models_comprehension acc rest
  end.

(** The locals [models_url] and [headers] of [fetch_models]. *)
Definition models_url : string := TOGETHER_API_BASE +:+ "/models".

Definition headers (key : string) : list (string * string) :=
  [("accept", "application/json");
   ("content-type", "application/json");
   ("Authorization", "Bearer " +:+ key)].

Definition fetch_models : M pyval :=
  try_except_RequestException
    (let* key := os_environ_getitem "TOGETHER_API_KEY" in
     let* response := requests_get models_url (headers key) in
     let* _ := lift (raise_for_status response) in
     let* models_list := lift (json response) in
     if negb (truthy models_list)
     then raise (ValueError "Could not retrieve models")
     else
       let* items := lift (py_iter models_list) in
       let* models := lift (models_comprehension [] items) in
       ret (PDict models))
    (fun e => raise (ValueError ("Could not retrieve models: " +:+ e))).

(** The provider descriptor after [__init__]. *)
Record ProviderChatTogether : Type := {
  config : gmap string pyval;
  models : pyval
}.

(** [self.config.get(key)]: the configured value, [None] when unset. *)
Definition config_get (cfg : gmap string pyval) (key : string) : pyval :=
  default PNone (cfg !! key).

Definition MODELS_KEY : string := "plugins.provider_chat_together.models".

(** [ProviderChatTogether.__init__]:
    [self.models = self.config.get(...) or self.fetch_models()] *)
Definition ProviderChatTogether_init (cfg : gmap string pyval)
  : M ProviderChatTogether :=
  let configured := config_get cfg MODELS_KEY in
  if truthy configured
  then ret {| config := cfg; models := configured |}
  else
    let* fetched := fetch_models in
    ret {| config := cfg; models := fetched |}.

(** [capabilities] *)
Definition capabilities (self : ProviderChatTogether) : pyval :=
  PDict [(PStr "chat", PBool true);
         (PStr "validate_models", PBool false);
         (PStr "models", models self)].

(** [default_model] *)
Definition default_model (self : ProviderChatTogether) : string :=
  TOGETHER_DEFAULT_MODEL.

(** ** The client adapter *)

Definition ChatTogether_llm_type : string := "chat_together".

Section ChatTogether.
(** The generic client: what [ChatOpenAI.__init__] does with the keyword
    arguments it receives is left open. *)
Variable client : Type.
Variable ChatOpenAI_init : gmap string pyval -> M client.

(** [ChatTogether.__init__], called with keyword arguments [kwargs]. *)
Definition ChatTogether_init (kwargs : gmap string pyval) : M client :=
  let* popped :=
    match kwargs !! "openai_api_key" with
    | Some v => ret (v, delete "openai_api_key" kwargs)
    | None =>
        let* v := os_getenv "TOGETHER_API_KEY" in
        ret (from_option PStr PNone v, kwargs)
    end in
  let '(openai_api_key, kwargs) := popped in
  if negb (truthy openai_api_key)
  then raise (ValueError "TOGETHER_API_KEY is not set")
  else ChatOpenAI_init (<["openai_api_key" := openai_api_key]> kwargs).
End ChatTogether.

(** ** The customization schema

    [PresetValue] belongs to the host; its constructor is
    [PresetValue(value_type, min_value=None, max_value=None, options=None,
    include_none=False, private=False)]. *)

Inductive py_type : Type := Tbool | Tstr | Tint | Tfloat.

(** Numeric literals of the schema; [Float z] is the literal [z.0]. *)
Inductive number : Type := Int (z : Z) | Float (whole : Z).

Record PresetValue : Type := {
  value_type : py_type;
  min_value : option number;
  max_value : option number;
  options : option (list pyval);
  include_none : bool;
  private : bool
}.

Definition preset (t : py_type) : PresetValue :=
  {| value_type := t; min_value := None; max_value := None;
     options := None; include_none := false; private := false |}.

Definition ranged (t : py_type) (lo hi : number) : PresetValue :=
  {| value_type := t; min_value := Some lo; max_value := Some hi;
     options := None; include_none := false; private := false |}.

Definition with_none (p : PresetValue) : PresetValue :=
  {| value_type := value_type p; min_value := min_value p;
     max_value := max_value p; options := options p;
     include_none := true; private := private p |}.

Definition as_private (p : PresetValue) : PresetValue :=
  {| value_type := value_type p; min_value := min_value p;
     max_value := max_value p; options := options p;
     include_none := include_none p; private := true |}.

Definition with_options (p : PresetValue) (opts : list pyval) : PresetValue :=
  {| value_type := value_type p; min_value := min_value p;
     max_value := max_value p; options := Some opts;
     include_none := include_none p; private := private p |}.

(** A setting is a preset value, [None] (not supported), the class [dict],
    or a nested mapping of settings. *)
Inductive setting : Type :=
| Preset (p : PresetValue)
| Unsupported
| DictClass
| Nested (settings : list (string * setting)).

(** Modelled from the spec: [available_models] is a property of the host's
    [Provider] base class and is not part of this plugin's source.  The
    schema's allowed-model-name option list is "sourced dynamically from
    the current Model Registry's keys". *)
Definition available_models (self : ProviderChatTogether)
  : result (list pyval) :=
  match models self with
  | PDict entries => Ok (map fst entries)
  | _ => Raise (AttributeError "keys")
  end.

(** [customization_config] *)
Definition customization_config (self : ProviderChatTogether)
  : result (list (string * setting)) :=
  model_names ← available_models self;
  Ok [("verbose", Preset (preset Tbool));
      ("model_name", Preset (with_options (preset Tstr) model_names));
      ("temperature", Preset (ranged Tfloat (Float 0) (Float 2)));
      ("openai_api_base", Preset (with_none (preset Tstr)));
      ("openai_api_key", Preset (as_private (with_none (preset Tstr))));
      ("openai_organization", Preset (as_private (with_none (preset Tstr))));
      ("request_timeout", Preset (preset Tint));
      ("max_retries", Preset (ranged Tint (Int 1) (Int 10)));
      ("n", Preset (ranged Tint (Int 1) (Int 10)));
      ("max_tokens", Preset (with_none (preset Tint)));
      ("tools", Unsupported);
      ("tool_choice", Unsupported);
      ("model_kwargs", Nested [
         ("top_p", Preset (ranged Tfloat (Float 0) (Float 1)));
         ("presence_penalty", Preset (ranged Tfloat (Float (-2)) (Float 2)));
         ("frequency_penalty", Preset (ranged Tfloat (Float (-2)) (Float 2)));
         ("logit_bias", DictClass);
         ("logprobs", Preset (with_none (preset Tbool)));
         ("top_logprobs", Preset (with_none (ranged Tint (Int 0) (Int 20))));
         ("response_format", DictClass);
         ("stop", Preset (with_none (preset Tstr)));
         ("user", Preset (preset Tstr))])].

(** The setting stored under a name. *)
Fixpoint setting_of (name : string) (schema : list (string * setting))
  : option setting :=
  match schema with
  | [] => None
  | (n, s) :: rest => if String.eqb n name then Some s else setting_of name rest
  end.

(** ** Vocabulary of the properties *)

Definition CREDENTIAL_VAR : string := "TOGETHER_API_KEY".

(** The endpoint answers the authenticated model-listing request of a
    process whose environment holds the credential [key] with [r]. *)
Definition answers (w : world) (key : string) (r : response) : Prop :=
  environ w !! CREDENTIAL_VAR = Some key /\
  transport w models_url (headers key) = Ok r.

(** What one discovery run with credential [key] does to the world. *)
Definition discovery_log (key : string) : list event :=
  [EnvRead CREDENTIAL_VAR; HttpGet models_url (headers key)].

Definition is_get (e : event) : bool :=
  match e with HttpGet _ _ => true | EnvRead _ => false end.

Definition http_gets (tr : list event) : nat := length (filter is_get tr).

(** No registry is configured, or an empty one. *)
Definition unconfigured (cfg : gmap string pyval) : Prop :=
  truthy (config_get cfg MODELS_KEY) = false.

(** The registry value [{'max_tokens': n}] of a model. *)
Definition limit (n : Z) : pyval := PDict [(PStr "max_tokens", PInt n)].

(** A well-formed model object has a string [id], an integer
    [context_length] and a string [type]. *)
Definition model_fields (model : pyval) : option (string * Z * string) :=
  match getitem model "id", getitem model "context_length",
        getitem model "type" with
  | Ok (PStr i), Ok (PInt n), Ok (PStr t) => Some (i, n, t)
  | _, _, _ => None
  end.

Definition well_formed (model : pyval) : Prop := is_Some (model_fields model).

(** The context length [model] announces for the chat model [i]. *)
Definition chat_context (i : string) (model : pyval) : option Z :=
  match model_fields model with
  | Some (j, n, t) =>
      if String.eqb t "chat" && String.eqb j i then Some n else None
  | None => None
  end.

(** The context length of the last chat entry with id [i] in a response. *)
Definition last_chat (ms : list pyval) (i : string) : option Z :=
  foldl (fun found model =>
           match chat_context i model with
           | Some n => Some n
           | None => found
           end) None ms.

(** The dictionary built so far agrees with the entries already seen. *)
Definition registry_of (reg : list (pyval * pyval)) (seen : list pyval)
  : Prop :=
  NoDup reg.*1 /\
  (forall k, k ∈ reg.*1 -> exists i, k = PStr i) /\
  (forall i, dict_get reg (PStr i) = limit <$> last_chat seen i).

(** The registry holds exactly the chat entries of the response [ms]:
    [reg[i] == {'max_tokens': n}] just when [ms] lists a chat model with
    id [i] and context length [n]. *)
Definition exact_registry (ms : list pyval) (reg : list (pyval * pyval))
  : Prop :=
  forall i n,
    dict_get reg (PStr i) = Some (limit n) <->
    exists model,
      model ∈ ms /\ model_fields model = Some (i, n, "chat"%string).

(** No two chat entries of the response give one id different context
    lengths. *)
Definition consistent (ms : list pyval) : Prop :=
  forall i n n' model model',
    model ∈ ms -> model' ∈ ms ->
    model_fields model = Some (i, n, "chat"%string) ->
    model_fields model' = Some (i, n', "chat"%string) ->
    n = n'.

(** Every entry has a [type], and none is a chat model. *)
Definition not_chat (model : pyval) : Prop :=
  exists ty, getitem model "type" = Ok ty /\ eq_str ty "chat" = false.

(** The field whose absence stops the comprehension at [model]: [type]
    for every entry, [id] and [context_length] for chat entries only. *)
Definition missing_field (model : pyval) : option string :=
  match model with
  | PDict entries =>
      match dict_get entries (PStr "type") with
      | None => Some "type"
      | Some ty =>
          if eq_str ty "chat" then
            match dict_get entries (PStr "id") with
            | None => Some "id"
            | Some _ =>
                match dict_get entries (PStr "context_length") with
                | None => Some "context_length"
                | Some _ => None
                end
            end
          else None
      end
  | _ => None
  end.

(** The body is empty or absent: it decodes to a false value ([None], an
    empty list, an empty object, ...), or there is nothing to decode and
    [response.json()] raises requests' [JSONDecodeError]. *)
Inductive empty_body (r : response) : Prop :=
| body_false (v : pyval) :
    json r = Ok v -> truthy v = false -> empty_body r
| body_absent (msg : string) :
    json r = Raise (RequestException msg) -> empty_body r.

(** The status of the response is an HTTP error (4xx or 5xx). *)
Definition error_status (r : response) : Prop := 400 <= status_code r < 600.

(** The status of the response is a success (2xx). *)
Definition success_status (r : response) : Prop := 200 <= status_code r < 300.

(** A discovery run meets an HTTP error status or a network fault, whose
    text is [cause]. *)
Inductive discovery_fault (w : world) (key : string) : string -> Prop :=
| fault_status (r : response) :
    transport w models_url (headers key) = Ok r ->
    error_status r ->
    discovery_fault w key (http_error_msg r)
| fault_network (cause : string) :
    transport w models_url (headers key) = Raise (RequestException cause) ->
    discovery_fault w key cause.

(** *** Concrete worlds *)

(** A successful response with the decoded body [v]. *)
Definition ok_json (v : pyval) : response :=
  {| status_code := 200; http_error_msg := ""; json := Ok v |}.

(** A response with status [code] whose body decodes to [v]. *)
Definition status_json (code : Z) (v : pyval) : response :=
  {| status_code := code; http_error_msg := ""; json := Ok v |}.

(** The endpoint answers every request with [r]. *)
Definition serving (env : gmap string string) (r : response) : world :=
  {| environ := env; transport := fun _ _ => Ok r |}.

Definition with_key (key : string) : gmap string string :=
  {[ CREDENTIAL_VAR := key ]}.

(** A model object as the endpoint lists it. *)
Definition model_object (i : string) (n : Z) (t : string) : pyval :=
  PDict [(PStr "id", PStr i); (PStr "context_length", PInt n);
         (PStr "type", PStr t)].

(** A response with two chat entries and one of another type. *)
Definition sample_listing : list pyval :=
  [model_object "m1" 4096 "chat"; model_object "img" 77 "image";
   model_object "m2" 8192 "chat"].

(** A response listing the same id twice. *)
Definition listed_twice : list pyval :=
  [model_object "a" 1 "chat"; model_object "a" 2 "chat"].

(** A response whose only entry has a [type] and nothing else. *)
Definition bare_entry : list pyval := [PDict [(PStr "type", PStr "image")]].

(** A generic client that records the keyword arguments it was given. *)
Definition recording_client : gmap string pyval -> M (gmap string pyval) :=
  fun kwargs => ret kwargs.

(** *** Entries one by one

    What the comprehension does at a single entry, apart from the entries
    around it: the exception it raises there, and the assignment it makes
    to the dictionary otherwise. *)

Definition entry_error (model : pyval) : option exn :=
  match model with
  | PDict entries =>
      match dict_get entries (PStr "type") with
      | None => Some (KeyError "type")
      | Some ty =>
          if eq_str ty "chat" then
            match dict_get entries (PStr "id") with
            | None => Some (KeyError "id")
            | Some k =>
                match dict_get entries (PStr "context_length") with
                | None => Some (KeyError "context_length")
                | Some _ =>
                    if hashable k then None else Some (TypeError Unhashable)
                end
            end
          else None
      end
  | PList _ | PStr _ => Some (TypeError BadIndex)
  | PNone | PBool _ | PInt _ => Some (TypeError NotSubscriptable)
  end.

(** The comprehension passes the entry without raising. *)
Definition acceptable (model : pyval) : Prop := entry_error model = None.

(** The entry has a [type] field, and it equals ["chat"]. *)
Definition is_chat (model : pyval) : bool :=
  match getitem model "type" with
  | Ok ty => eq_str ty "chat"
  | Raise _ => false
  end.

(** The entry has a [type] field. *)
Definition has_type (model : pyval) : Prop :=
  is_ok (getitem model "type") = true.

Definition entry_update (acc : list (pyval * pyval)) (model : pyval)
  : list (pyval * pyval) :=
  if is_chat model then
    match getitem model "id", getitem model "context_length" with
    | Ok k, Ok c => dict_setitem acc k (PDict [(PStr "max_tokens", c)])
    | _, _ => acc
    end
  else acc.

(** No two keys of the dictionary are equal as keys. *)
Fixpoint keys_distinct (d : list (pyval * pyval)) : Prop :=
  match d with
  | [] => True
  | (k, _) :: rest =>
      (forall k', k' ∈ rest.*1 -> key_eqb k k' = false) /\ keys_distinct rest
  end.

(** The item [(k, x)] stems from a chat entry of [ms]: one whose id equals
    [k] as a key and whose context length is stored in [x]. *)
Definition from_chat_entry (ms : list pyval) (k x : pyval) : Prop :=
  exists model k' c,
    model ∈ ms /\ is_chat model = true /\
    getitem model "id" = Ok k' /\ key_eqb k k' = true /\
    getitem model "context_length" = Ok c /\
    x = PDict [(PStr "max_tokens", c)].

(** The ids of the chat entries of a well-formed response, as listed. *)
Definition chat_ids (ms : list pyval) : list string :=
  omap (fun model =>
          match model_fields model with
          | Some (i, _, t) => if String.eqb t "chat" then Some i else None
          | None => None
          end) ms.

(** A list without its repetitions, each element at its first place. *)
Fixpoint first_listed (l : list string) : list string :=
  match l with
  | [] => []
  | x :: rest => x :: filter (fun y => y <> x) (first_listed rest)
  end.

(** A decoded body that is true but not a list: [true], a number other
    than zero, a non-empty string, or a non-empty object. *)
Inductive true_non_list : pyval -> Prop :=
| non_list_true : true_non_list (PBool true)
| non_list_number (n : Z) : n <> 0 -> true_non_list (PInt n)
| non_list_text (s : string) : s <> ""%string -> true_non_list (PStr s)
| non_list_object (k v : pyval) (rest : list (pyval * pyval)) :
    hashable k = true -> true_non_list (PDict ((k, v) :: rest)).

(** The exception is not a [requests] exception. *)
Definition not_request_exception (e : exn) : Prop :=
  forall msg, e <> RequestException msg.

(** A chat entry whose id is a list. *)
Definition list_id_entry : pyval :=
  PDict [(PStr "type", PStr "chat"); (PStr "id", PList [PStr "m1"]);
         (PStr "context_length", PInt 4096)].

(** The schema a provider hands out, empty if it cannot build one. *)
Definition schema_of (self : ProviderChatTogether)
  : list (string * setting) :=
  match customization_config self with
  | Ok schema => schema
  | Raise _ => []
  end.

(** An endpoint that cannot be reached: every request raises [e]. *)
Definition failing (env : gmap string string) (e : exn) : world :=
  {| environ := env; transport := fun _ _ => Raise e |}.

(** ** Dictionaries *)

Lemma key_eqb_str_l k j : key_eqb k (PStr j) = true -> k = PStr j.
Proof.
  destruct k; simpl; try discriminate.
  intros H. apply String.eqb_eq in H. by subst.
Qed.

Lemma key_eqb_str i j : key_eqb (PStr i) (PStr j) = String.eqb i j.
Proof. reflexivity. Qed.

Lemma dict_get_setitem d j i x :
  dict_get (dict_setitem d (PStr j) x) (PStr i)
  = if String.eqb j i then Some x else dict_get d (PStr i).
Proof.
  induction d as [|[k v] d IH]; simpl.
  - by destruct (String.eqb j i).
  - destruct (key_eqb k (PStr j)) eqn:Hk; simpl.
    + apply key_eqb_str_l in Hk as ->. rewrite key_eqb_str.
      by destruct (String.eqb j i).
    + rewrite IH. destruct (String.eqb j i) eqn:Hji; [|done].
      apply String.eqb_eq in Hji as <-. by rewrite Hk.
Qed.

Lemma dict_setitem_keys d k x k' :
  k' ∈ (dict_setitem d k x).*1 -> k' ∈ d.*1 \/ k' = k.
Proof.
  induction d as [|[k0 v0] d IH]; simpl.
  - rewrite list_elem_of_singleton. by right.
  - destruct (key_eqb k0 k); simpl; [by left|].
    rewrite !elem_of_cons. intros [->|H]; [by left; left|].
    destruct (IH H); [left; by right | by right].
Qed.

Lemma dict_setitem_NoDup d j x :
  NoDup d.*1 -> NoDup (dict_setitem d (PStr j) x).*1.
Proof.
  induction d as [|[k v] d IH]; simpl; intros Hnd.
  - apply NoDup_singleton.
  - destruct (key_eqb k (PStr j)) eqn:Hk; simpl; [done|].
    apply NoDup_cons in Hnd as [Hk' Hnd]. apply NoDup_cons. split; [|auto].
    intros Hin. apply dict_setitem_keys in Hin as [Hin| ->]; [done|].
    rewrite key_eqb_str, String.eqb_refl in Hk. discriminate.
Qed.

Lemma dict_get_key d i : PStr i ∈ d.*1 <-> is_Some (dict_get d (PStr i)).
Proof.
  induction d as [|[k v] d IH]; simpl.
  - split; [by intros ?%elem_of_nil | by intros [? ?]].
  - rewrite elem_of_cons. destruct (key_eqb k (PStr i)) eqn:Hk.
    + apply key_eqb_str_l in Hk as ->. split; eauto.
    + rewrite <- IH. split; [|by right].
      intros [<-|H]; [|done].
      rewrite key_eqb_str, String.eqb_refl in Hk. discriminate.
Qed.

(** ** The comprehension over well-formed entries *)

Lemma model_fields_getitem model i n t :
  model_fields model = Some (i, n, t) ->
  getitem model "id" = Ok (PStr i) /\
  getitem model "context_length" = Ok (PInt n) /\
  getitem model "type" = Ok (PStr t).
Proof.
  unfold model_fields.
  destruct (getitem model "id") as [[]|]; try discriminate.
  destruct (getitem model "context_length") as [[]|]; try discriminate.
  destruct (getitem model "type") as [[]|]; try discriminate.
  by intros [= -> -> ->].
Qed.

Lemma last_chat_snoc done model i :
  last_chat (done ++ [model]) i
  = match chat_context i model with
    | Some n => Some n
    | None => last_chat done i
    end.
Proof. unfold last_chat. by rewrite foldl_app. Qed.

Lemma last_chat_elem ms i n :
  last_chat ms i = Some n ->
  exists model, model ∈ ms /\ model_fields model = Some (i, n, "chat"%string).
Proof.
  induction ms as [|model ms IH] using rev_ind; [discriminate|].
  rewrite last_chat_snoc. unfold chat_context.
  destruct (model_fields model) as [[[j m] t]|] eqn:Hf.
  - destruct (String.eqb t "chat" && String.eqb j i) eqn:Hc.
    + apply andb_true_iff in Hc as [->%String.eqb_eq ->%String.eqb_eq].
      intros [= ->]. exists model. split; [set_solver|done].
    + intros (m' & ? & ?)%IH. exists m'. split; [set_solver|done].
  - intros (m' & ? & ?)%IH. exists m'. split; [set_solver|done].
Qed.

Lemma last_chat_is_Some ms i :
  is_Some (last_chat ms i) <->
  exists model n,
    model ∈ ms /\ model_fields model = Some (i, n, "chat"%string).
Proof.
  split.
  - intros [n Hn]. apply last_chat_elem in Hn as (model & ? & ?). eauto.
  - intros (model & n & Hin & Hf).
    induction ms as [|m ms IH] using rev_ind; [by apply elem_of_nil in Hin|].
    rewrite last_chat_snoc.
    apply elem_of_app in Hin as [Hin|Hin].
    + destruct (chat_context i m); [eauto|auto].
    + apply list_elem_of_singleton in Hin as ->.
      unfold chat_context. rewrite Hf. simpl. rewrite String.eqb_refl. eauto.
Qed.

Lemma last_chat_consistent ms i n :
  consistent ms ->
  last_chat ms i = Some n <->
  exists model,
    model ∈ ms /\ model_fields model = Some (i, n, "chat"%string).
Proof.
  intros Hcons. split; [apply last_chat_elem|].
  intros (model & Hin & Hf).
  destruct (proj2 (last_chat_is_Some ms i)) as [n' Hn']; [eauto|].
  destruct (last_chat_elem _ _ _ Hn') as (model' & Hin' & Hf').
  by rewrite (Hcons i n n' model model').
Qed.

Lemma models_comprehension_well_formed rest :
  forall acc seen,
    Forall well_formed rest ->
    registry_of acc seen ->
    exists reg,
      models_comprehension acc rest = Ok reg /\
      registry_of reg (seen ++ rest).
Proof.
  induction rest as [|model rest IH]; intros acc seen Hwf Hreg.
  - exists acc. by rewrite app_nil_r.
  - apply Forall_cons in Hwf as [[[[j n] t] Hf] Hwf].
    destruct (model_fields_getitem _ _ _ _ Hf) as (Hid & Hctx & Hty).
    simpl. rewrite Hty. simpl.
    replace (seen ++ model :: rest) with ((seen ++ [model]) ++ rest)
      by (by rewrite <- app_assoc).
    destruct Hreg as (Hnd & Hkeys & Hget).
    destruct (String.eqb t "chat") eqn:Ht.
    + rewrite Hid, Hctx. simpl. apply IH; [done|].
      split; [by apply dict_setitem_NoDup|]. split.
      * intros k [Hin| ->]%dict_setitem_keys; eauto.
      * intros i. rewrite dict_get_setitem, last_chat_snoc.
        unfold chat_context. rewrite Hf, Ht. simpl.
        destruct (String.eqb j i); [done|]. apply Hget.
    + apply IH; [done|].
      split; [done|]. split; [done|].
      intros i. rewrite last_chat_snoc. unfold chat_context.
      rewrite Hf, Ht. simpl. apply Hget.
Qed.

(** ** Running discovery *)

Lemma raise_for_status_ok r : ~ error_status r -> raise_for_status r = Ok tt.
Proof.
  unfold error_status, raise_for_status. intros H.
  destruct (400 <=? status_code r) eqn:H1; [|done].
  destruct (status_code r <? 600) eqn:H2; [|done].
  apply Z.leb_le in H1. apply Z.ltb_lt in H2. lia.
Qed.

Lemma raise_for_status_error r :
  error_status r ->
  raise_for_status r = Raise (RequestException (http_error_msg r)).
Proof.
  unfold error_status, raise_for_status. intros [H1 H2].
  apply Z.leb_le in H1. apply Z.ltb_lt in H2. by rewrite H1, H2.
Qed.

(** The comprehension raises [KeyError] and [TypeError] only. *)
Lemma models_comprehension_no_request_exception items :
  forall acc msg,
    models_comprehension acc items <> Raise (RequestException msg).
Proof.
  induction items as [|model items IH]; intros acc msg; simpl; [done|].
  destruct (getitem model "type") as [ty|e] eqn:Hty; simpl.
  - destruct (eq_str ty "chat"); [|apply IH].
    destruct (getitem model "id") as [k|e] eqn:Hid; simpl.
    + destruct (getitem model "context_length") as [c|e] eqn:Hc; simpl.
      * destruct (hashable k); [apply IH|done].
      * destruct model as [| | | | |d]; simpl in Hc; try by inversion Hc.
        destruct (dict_get d _); by inversion Hc.
    + destruct model as [| | | | |d]; simpl in Hid; try by inversion Hid.
      destruct (dict_get d _); by inversion Hid.
  - destruct model as [| | | | |d]; simpl in Hty; try by inversion Hty.
    destruct (dict_get d _); by inversion Hty.
Qed.

Lemma discovery_log_app tr key :
  (tr ++ [EnvRead "TOGETHER_API_KEY"]) ++ [HttpGet models_url (headers key)]
  = tr ++ discovery_log key.
Proof. by rewrite <- app_assoc. Qed.

Ltac run_discovery Henv Hget :=
  unfold fetch_models, try_except_RequestException, bind,
    os_environ_getitem, requests_get, lift, ret, raise;
  unfold CREDENTIAL_VAR in Henv; rewrite Henv, Hget, ?discovery_log_app.

(** Discovery over a response that decodes to a non-empty list. *)
Lemma fetch_models_list w key r ms tr :
  answers w key r ->
  ~ error_status r ->
  json r = Ok (PList ms) ->
  ms <> [] ->
  fetch_models w tr
  = (PDict <$> models_comprehension [] ms, tr ++ discovery_log key).
Proof.
  intros [Henv Hget] Hst%raise_for_status_ok Hjson Hne.
  run_discovery Henv Hget. rewrite Hst, Hjson. simpl.
  destruct ms as [|m ms]; [done|]. simpl truthy. cbv iota beta.
  pose proof (models_comprehension_no_request_exception (m :: ms) []) as Hno.
  destruct (models_comprehension [] (m :: ms)) as [reg|[]]; try done.
  by destruct (Hno msg).
Qed.

(** ** Model discovery *)

(** C1 (as amended).  For every non-empty well-formed model-list response,
    discovery returns a registry whose keys are distinct, are exactly the
    ids of the response entries of type "chat", and whose value at an id is
    [{'max_tokens': n}] for the context length [n] of the last chat entry
    listed with that id.  Entries of any other type are excluded.  When no
    id is listed with two different context lengths, the registry is
    exactly the set of chat entries of the response. *)
Theorem discovery_registry w key r ms tr :
  answers w key r ->
  ~ error_status r ->
  json r = Ok (PList ms) ->
  ms <> [] ->
  Forall well_formed ms ->
  exists reg,
    fetch_models w tr = (Ok (PDict reg), tr ++ discovery_log key) /\
    NoDup reg.*1 /\
    (forall k, k ∈ reg.*1 <->
       exists i n model,
         k = PStr i /\ model ∈ ms /\
         model_fields model = Some (i, n, "chat"%string)) /\
    (forall i, dict_get reg (PStr i) = limit <$> last_chat ms i) /\
    (consistent ms -> exact_registry ms reg).
Proof.
  intros Hans Hst Hjson Hne Hwf.
  destruct (models_comprehension_well_formed ms [] [] Hwf)
    as (reg & Hrun & Hnd & Hkeys & Hget).
  { split; [apply NoDup_nil_2|]. split; [|done].
    by intros k ?%elem_of_nil. }
  simpl in Hnd, Hkeys, Hget.
  exists reg. rewrite (fetch_models_list w key r ms tr), Hrun by done.
  split; [done|]. split; [done|]. split; [|split; [done|]].
  - intros k. split.
    + intros Hin. destruct (Hkeys k Hin) as [i ->].
      apply dict_get_key in Hin. rewrite Hget, fmap_is_Some in Hin.
      apply last_chat_is_Some in Hin as (model & n & ? & ?).
      by exists i, n, model.
    + intros (i & n & model & -> & Hin & Hf).
      apply dict_get_key. rewrite Hget, fmap_is_Some.
      apply last_chat_is_Some. eauto.
  - intros Hcons i n. rewrite Hget, <- (last_chat_consistent ms i n Hcons).
    destruct (last_chat ms i) as [n'|]; simpl; [|done].
    split; [by intros [= ->] | by intros [= ->]].
Qed.

Lemma discovery_registry_witness :
  exists reg,
    fetch_models (serving (with_key "k") (ok_json (PList sample_listing))) []
    = (Ok (PDict reg), [] ++ discovery_log "k") /\
    NoDup reg.*1 /\
    (forall k, k ∈ reg.*1 <->
       exists i n model,
         k = PStr i /\ model ∈ sample_listing /\
         model_fields model = Some (i, n, "chat"%string)) /\
    (forall i, dict_get reg (PStr i) = limit <$> last_chat sample_listing i) /\
    (consistent sample_listing -> exact_registry sample_listing reg).
Proof.
  apply (discovery_registry _ "k" (ok_json (PList sample_listing))).
  - split; reflexivity.
  - unfold error_status; simpl; lia.
  - reflexivity.
  - discriminate.
  - repeat constructor; eexists; reflexivity.
Defined.

(** C1 fails as stated on two well-formed responses: on the empty list
    discovery raises instead of returning a registry, and when an id is
    listed twice the registry keeps only the later context length. *)
Lemma discovery_registry_counterexample :
  (Forall well_formed [] /\
   ~ exists reg,
       (fetch_models (serving (with_key "k") (ok_json (PList []))) []).1
       = Ok (PDict reg) /\ exact_registry [] reg) /\
  (Forall well_formed listed_twice /\
   ~ exists reg,
       (fetch_models (serving (with_key "k") (ok_json (PList listed_twice)))
          []).1
       = Ok (PDict reg) /\ exact_registry listed_twice reg).
Proof.
  split; split.
  - constructor.
  - intros (reg & Hrun & _). vm_compute in Hrun. discriminate.
  - repeat constructor; eexists; reflexivity.
  - intros (reg & Hrun & Hex). vm_compute in Hrun.
    injection Hrun as <-.
    destruct (Hex "a"%string 1) as [_ Hback].
    assert (dict_get [(PStr "a", limit 2)] (PStr "a") = Some (limit 1)) as H.
    { apply Hback. exists (model_object "a" 1 "chat").
      split; [apply elem_of_cons; by left | reflexivity]. }
    vm_compute in H. discriminate.
Qed.

(** ** Initialization through discovery *)

Lemma ProviderChatTogether_init_unconfigured cfg w tr :
  unconfigured cfg ->
  ProviderChatTogether_init cfg w tr
  = match fetch_models w tr with
    | (Ok fetched, tr') => (Ok {| config := cfg; models := fetched |}, tr')
    | (Raise e, tr') => (Raise e, tr')
    end.
Proof.
  unfold unconfigured, ProviderChatTogether_init. intros ->.
  unfold bind, ret. by destruct (fetch_models w tr) as [[fetched|e] tr'].
Qed.

Lemma raise_for_status_cases r :
  raise_for_status r = Ok tt \/
  raise_for_status r = Raise (RequestException (http_error_msg r)).
Proof.
  unfold raise_for_status.
  destruct (_ && _); [by right | by left].
Qed.

Lemma fetch_models_fault w key cause tr :
  environ w !! CREDENTIAL_VAR = Some key ->
  discovery_fault w key cause ->
  fetch_models w tr
  = (Raise (ValueError ("Could not retrieve models: " +:+ cause)),
     tr ++ discovery_log key).
Proof.
  intros Henv [r Hget Hst%raise_for_status_error | msg Hget];
    run_discovery Henv Hget; [by rewrite Hst | done].
Qed.

Lemma models_comprehension_not_chat ms :
  forall acc, Forall not_chat ms -> models_comprehension acc ms = Ok acc.
Proof.
  induction ms as [|model ms IH]; intros acc Hnc; [done|].
  apply Forall_cons in Hnc as [(ty & Hty & Hne) Hnc].
  simpl. rewrite Hty. simpl. rewrite Hne. by apply IH.
Qed.

(** C2 (as amended).  For every model-list response that is a non-empty
    list without any entry of type "chat", initialization succeeds and the
    Model Registry is empty; a present-but-empty list is an error, like a
    missing body. *)
Theorem no_chat_models cfg w key r ms tr :
  unconfigured cfg ->
  answers w key r ->
  ~ error_status r ->
  json r = Ok (PList ms) ->
  Forall not_chat ms ->
  ProviderChatTogether_init cfg w tr
  = (match ms with
     | [] => Raise (ValueError "Could not retrieve models")
     | _ :: _ => Ok {| config := cfg; models := PDict [] |}
     end, tr ++ discovery_log key).
Proof.
  intros Hcfg Hans Hst Hjson Hnc.
  rewrite ProviderChatTogether_init_unconfigured by done.
  destruct ms as [|m ms].
  - destruct Hans as [Henv Hget]. apply raise_for_status_ok in Hst.
    run_discovery Henv Hget. by rewrite Hst, Hjson.
  - rewrite (fetch_models_list w key r (m :: ms) tr) by done.
    by rewrite models_comprehension_not_chat.
Qed.

Lemma no_chat_models_witness :
  ProviderChatTogether_init ∅
    (serving (with_key "k") (ok_json (PList [model_object "img" 77 "image"])))
    []
  = (Ok {| config := ∅; models := PDict [] |}, [] ++ discovery_log "k").
Proof.
  apply (no_chat_models ∅ _ "k"
           (ok_json (PList [model_object "img" 77 "image"]))
           [model_object "img" 77 "image"]).
  - reflexivity.
  - split; reflexivity.
  - unfold error_status; simpl; lia.
  - reflexivity.
  - repeat constructor. eexists. split; reflexivity.
Defined.

(** C2 fails as stated: a present-but-empty list has zero chat entries,
    and initialization raises. *)
Lemma no_chat_models_counterexample :
  Forall not_chat [] /\
  (ProviderChatTogether_init ∅
     (serving (with_key "k") (ok_json (PList []))) []).1
  = Raise (ValueError "Could not retrieve models").
Proof. split; [constructor | reflexivity]. Qed.

(** C3.  When the response body is empty or absent, initialization fails
    with a discovery error and yields no registry. *)
Theorem empty_body_fails cfg w key r tr :
  unconfigured cfg ->
  answers w key r ->
  empty_body r ->
  exists detail,
    ProviderChatTogether_init cfg w tr
    = (Raise (ValueError ("Could not retrieve models" +:+ detail)),
       tr ++ discovery_log key).
Proof.
  intros Hcfg [Henv Hget] Hbody.
  rewrite ProviderChatTogether_init_unconfigured by done.
  run_discovery Henv Hget.
  destruct (raise_for_status_cases r) as [-> | ->].
  - destruct Hbody as [v -> Hv | msg ->]; simpl.
    + rewrite Hv. simpl. by exists ""%string.
    + by exists (": " +:+ msg)%string.
  - by exists (": " +:+ http_error_msg r)%string.
Qed.

Lemma empty_body_fails_witness :
  exists detail,
    ProviderChatTogether_init ∅ (serving (with_key "k") (ok_json PNone)) []
    = (Raise (ValueError ("Could not retrieve models" +:+ detail)),
       [] ++ discovery_log "k").
Proof.
  apply (empty_body_fails ∅ _ "k" (ok_json PNone)).
  - reflexivity.
  - split; reflexivity.
  - by apply (body_false _ PNone).
Defined.

(** C6 (as amended).  When the model-listing endpoint answers with an HTTP
    error status (4xx or 5xx) or the request meets a network fault,
    initialization fails and the message of the error raised ends with the
    text of that cause. *)
Theorem discovery_fault_reported cfg w key cause tr :
  unconfigured cfg ->
  environ w !! CREDENTIAL_VAR = Some key ->
  discovery_fault w key cause ->
  ProviderChatTogether_init cfg w tr
  = (Raise (ValueError ("Could not retrieve models: " +:+ cause)),
     tr ++ discovery_log key).
Proof.
  intros Hcfg Henv Hfault.
  rewrite ProviderChatTogether_init_unconfigured by done.
  by rewrite (fetch_models_fault w key cause).
Qed.

Lemma discovery_fault_reported_witness :
  ProviderChatTogether_init ∅
    (serving (with_key "k")
       {| status_code := 401;
          http_error_msg := "401 Client Error: Unauthorized";
          json := Ok PNone |}) []
  = (Raise (ValueError
       ("Could not retrieve models: " +:+ "401 Client Error: Unauthorized")),
     [] ++ discovery_log "k").
Proof.
  apply discovery_fault_reported.
  - reflexivity.
  - reflexivity.
  - apply (fault_status _ _
             {| status_code := 401;
                http_error_msg := "401 Client Error: Unauthorized";
                json := Ok PNone |}).
    + reflexivity.
    + unfold error_status; simpl; lia.
Defined.

(** C6 fails as stated for a status that is neither a success nor an HTTP
    error: with 304 or 600 and a model list in the body,
    [raise_for_status] lets the response through and initialization
    returns a registry. *)
Lemma discovery_fault_reported_counterexample :
  (~ success_status (status_json 304 (PList sample_listing)) /\
   ProviderChatTogether_init ∅
     (serving (with_key "k") (status_json 304 (PList sample_listing))) []
   = (Ok {| config := ∅;
            models := PDict [(PStr "m1", limit 4096);
                             (PStr "m2", limit 8192)] |},
      discovery_log "k")) /\
  (~ success_status (status_json 600 (PList sample_listing)) /\
   ProviderChatTogether_init ∅
     (serving (with_key "k") (status_json 600 (PList sample_listing))) []
   = (Ok {| config := ∅;
            models := PDict [(PStr "m1", limit 4096);
                             (PStr "m2", limit 8192)] |},
      discovery_log "k")).
Proof.
  split; (split; [unfold success_status; simpl; lia | reflexivity]).
Qed.

(** ** Malformed responses *)

Lemma missing_field_raises bad f acc rest :
  missing_field bad = Some f ->
  models_comprehension acc (bad :: rest) = Raise (KeyError f).
Proof.
  destruct bad as [| | | | |d]; try discriminate.
  simpl. destruct (dict_get d (PStr "type")) as [ty|]; simpl.
  - destruct (eq_str ty "chat"); [|discriminate].
    destruct (dict_get d (PStr "id")) as [k|]; simpl.
    + destruct (dict_get d (PStr "context_length")); simpl; [discriminate|].
      by intros [= <-].
    + by intros [= <-].
  - by intros [= <-].
Qed.

Lemma models_comprehension_stops good bad rest f :
  forall acc,
    Forall well_formed good ->
    missing_field bad = Some f ->
    models_comprehension acc (good ++ bad :: rest) = Raise (KeyError f).
Proof.
  induction good as [|model good IH]; intros acc Hwf Hbad.
  - by apply missing_field_raises.
  - apply Forall_cons in Hwf as [[[[j n] t] Hf] Hwf].
    destruct (model_fields_getitem _ _ _ _ Hf) as (Hid & Hctx & Hty).
    simpl. rewrite Hty. simpl.
    destruct (String.eqb t "chat"); [|by apply IH].
    rewrite Hid, Hctx. simpl. by apply IH.
Qed.

(** C7 (as amended).  Discovery fails when the body cannot be decoded, with
    the decoding error's text in the message, and when, after well-formed
    entries, an entry lacks the type field or an entry of type "chat" lacks
    the id or context_length field, with a [KeyError] naming that field.
    An entry of another type is not inspected for id or context_length. *)
Theorem malformed_body_fails cfg w key r tr :
  unconfigured cfg ->
  answers w key r ->
  ~ error_status r ->
  (forall msg,
     json r = Raise (RequestException msg) ->
     ProviderChatTogether_init cfg w tr
     = (Raise (ValueError ("Could not retrieve models: " +:+ msg)),
        tr ++ discovery_log key)) /\
  (forall good bad rest f,
     json r = Ok (PList (good ++ bad :: rest)) ->
     Forall well_formed good ->
     missing_field bad = Some f ->
     ProviderChatTogether_init cfg w tr
     = (Raise (KeyError f), tr ++ discovery_log key)).
Proof.
  intros Hcfg Hans Hst. split.
  - intros msg Hjson. destruct Hans as [Henv Hget].
    rewrite ProviderChatTogether_init_unconfigured by done.
    apply raise_for_status_ok in Hst.
    run_discovery Henv Hget. by rewrite Hst, Hjson.
  - intros good bad rest f Hjson Hwf Hbad.
    rewrite ProviderChatTogether_init_unconfigured by done.
    rewrite (fetch_models_list w key r (good ++ bad :: rest) tr); try done.
    + by rewrite (models_comprehension_stops good bad rest f).
    + by destruct good.
Qed.

Lemma malformed_body_fails_witness :
  ProviderChatTogether_init ∅
    (serving (with_key "k")
       (ok_json (PList ([model_object "m1" 4096 "chat"] ++
                        PDict [(PStr "type", PStr "chat");
                               (PStr "context_length", PInt 8192)] :: []))))
    []
  = (Raise (KeyError "id"), [] ++ discovery_log "k").
Proof.
  refine (proj2 (malformed_body_fails ∅ _ "k" (ok_json _) [] _ _ _)
            [model_object "m1" 4096 "chat"] _ [] "id"%string _ _ _).
  - reflexivity.
  - split; reflexivity.
  - unfold error_status; simpl; lia.
  - reflexivity.
  - repeat constructor. eexists. reflexivity.
  - reflexivity.
Defined.

(** C7 fails as stated: an entry without id and context_length whose type
    is not "chat" does not stop discovery. *)
Lemma malformed_body_fails_counterexample :
  Forall (fun model => is_ok (getitem model "id") = false) bare_entry /\
  ProviderChatTogether_init ∅
    (serving (with_key "k") (ok_json (PList bare_entry))) []
  = (Ok {| config := ∅; models := PDict [] |}, discovery_log "k").
Proof. split; [by repeat constructor | reflexivity]. Qed.

(** ** Configured registry or discovery *)

Lemma fetch_models_log w tr :
  (fetch_models w tr).2
  = tr ++ match environ w !! CREDENTIAL_VAR with
          | Some key => discovery_log key
          | None => [EnvRead CREDENTIAL_VAR]
          end.
Proof.
  unfold fetch_models, try_except_RequestException, bind,
    os_environ_getitem, requests_get, lift, ret, raise, CREDENTIAL_VAR.
  destruct (environ w !! "TOGETHER_API_KEY") as [key|]; [|done].
  rewrite <- discovery_log_app.
  destruct (transport w models_url (headers key)) as [r|[]]; try done.
  destruct (raise_for_status r) as [u|[]]; try done.
  destruct (json r) as [v|[]]; try done.
  destruct (negb (truthy v)); [done|].
  destruct (py_iter v) as [items|[]]; try done.
  by destruct (models_comprehension [] items) as [reg|[]].
Qed.

Lemma http_gets_discovery_log key : http_gets (discovery_log key) = 1%nat.
Proof. reflexivity. Qed.

(** C4 (as amended).  When the host configuration holds a non-empty model
    registry under the provider's key, initialization uses it as it is and
    touches neither the environment nor the network.  When the registry is
    absent or empty, initialization runs discovery once: it issues one HTTP
    GET if the credential variable is set and none if it is not. *)
Theorem registry_resolution cfg w :
  (truthy (config_get cfg MODELS_KEY) = true ->
   forall tr,
     ProviderChatTogether_init cfg w tr
     = (Ok {| config := cfg; models := config_get cfg MODELS_KEY |}, tr)) /\
  (unconfigured cfg ->
   (ProviderChatTogether_init cfg w []).1
   = (fun fetched => {| config := cfg; models := fetched |})
       <$> (fetch_models w []).1 /\
   (ProviderChatTogether_init cfg w []).2 = (fetch_models w []).2 /\
   http_gets (ProviderChatTogether_init cfg w []).2
   = match environ w !! CREDENTIAL_VAR with
     | Some _ => 1%nat
     | None => 0%nat
     end).
Proof.
  split.
  - intros Hcfg tr. unfold ProviderChatTogether_init. by rewrite Hcfg.
  - intros Hcfg. rewrite ProviderChatTogether_init_unconfigured by done.
    pose proof (fetch_models_log w []) as Hlog.
    destruct (fetch_models w []) as [[fetched|e] tr'];
      simpl in *; subst tr'; (split; [done|]); (split; [done|]);
      by destruct (environ w !! CREDENTIAL_VAR).
Qed.

Lemma registry_resolution_witness :
  ProviderChatTogether_init {[ MODELS_KEY := PDict [(PStr "m1", limit 4096)] ]}
    (serving ∅ (ok_json PNone)) []
  = (Ok {| config := {[ MODELS_KEY := PDict [(PStr "m1", limit 4096)] ]};
           models := config_get
                       {[ MODELS_KEY := PDict [(PStr "m1", limit 4096)] ]}
                       MODELS_KEY |}, []).
Proof.
  apply (proj1 (registry_resolution
                  {[ MODELS_KEY := PDict [(PStr "m1", limit 4096)] ]}
                  (serving ∅ (ok_json PNone)))).
  reflexivity.
Defined.

(** C4 fails as stated: an empty registry is present under the provider's
    key, yet initialization issues the HTTP GET and takes the models the
    endpoint lists. *)
Lemma registry_resolution_counterexample :
  ({[ MODELS_KEY := PDict [] ]} : gmap string pyval) !! MODELS_KEY
  = Some (PDict []) /\
  ProviderChatTogether_init {[ MODELS_KEY := PDict [] ]}
    (serving (with_key "k") (ok_json (PList sample_listing))) []
  = (Ok {| config := {[ MODELS_KEY := PDict [] ]};
           models := PDict [(PStr "m1", limit 4096);
                            (PStr "m2", limit 8192)] |},
     [EnvRead CREDENTIAL_VAR; HttpGet models_url (headers "k")]).
Proof. split; reflexivity. Qed.

(** ** The credential of the client adapter *)

Section Credential.
Context {client : Type} (ChatOpenAI_init : gmap string pyval -> M client).

(** C5.  Without a credential among the keyword arguments and with the
    environment variable unset or empty, construction raises the
    configuration error after reading the variable: the generic client is
    never constructed and no request is sent. *)
Theorem credential_not_set kwargs w tr :
  kwargs !! "openai_api_key" = None ->
  environ w !! CREDENTIAL_VAR = None \/
  environ w !! CREDENTIAL_VAR = Some ""%string ->
  ChatTogether_init client ChatOpenAI_init kwargs w tr
  = (Raise (ValueError "TOGETHER_API_KEY is not set"),
     tr ++ [EnvRead CREDENTIAL_VAR]) /\
  http_gets (tr ++ [EnvRead CREDENTIAL_VAR]) = http_gets tr.
Proof.
  intros Hkw Henv. split.
  - unfold ChatTogether_init, bind, os_getenv, ret, raise.
    rewrite Hkw. unfold CREDENTIAL_VAR in Henv.
    by destruct Henv as [-> | ->].
  - unfold http_gets. by rewrite filter_app, length_app, Nat.add_0_r.
Qed.

(** C10.  A credential keyword whose value is false ([None], the empty
    string) makes construction raise the configuration error at once; the
    environment variable is not read. *)
Theorem empty_credential_keyword kwargs v w tr :
  kwargs !! "openai_api_key" = Some v ->
  truthy v = false ->
  ChatTogether_init client ChatOpenAI_init kwargs w tr
  = (Raise (ValueError "TOGETHER_API_KEY is not set"), tr).
Proof.
  intros Hkw Hv. unfold ChatTogether_init, bind, ret, raise.
  by rewrite Hkw, Hv.
Qed.

(** X13.  Whatever the keyword arguments and the environment, construction
    either raises the configuration error or constructs the generic client
    with a true credential under [openai_api_key]: the generic client is
    never constructed with [None] or an empty string. *)
Lemma ChatTogether_init_guard kwargs w tr :
  (exists tr',
     ChatTogether_init client ChatOpenAI_init kwargs w tr
     = (Raise (ValueError "TOGETHER_API_KEY is not set"), tr')) \/
  (exists key kwargs' tr',
     truthy key = true /\
     ChatTogether_init client ChatOpenAI_init kwargs w tr
     = ChatOpenAI_init (<["openai_api_key" := key]> kwargs') w tr').
Proof.
  unfold ChatTogether_init, bind, os_getenv, ret, raise.
  destruct (kwargs !! "openai_api_key") as [v|].
  - destruct (truthy v) eqn:Hv; simpl; [right|left]; eauto.
  - destruct (truthy (from_option PStr PNone (environ w !! "TOGETHER_API_KEY")))
      eqn:Hv; simpl; [right|left]; eauto.
Qed.

End Credential.

Lemma credential_not_set_witness :
  ChatTogether_init _ recording_client ∅ (serving (with_key "") (ok_json PNone))
    []
  = (Raise (ValueError "TOGETHER_API_KEY is not set"),
     [] ++ [EnvRead CREDENTIAL_VAR]) /\
  http_gets ([] ++ [EnvRead CREDENTIAL_VAR]) = http_gets [].
Proof.
  apply (credential_not_set recording_client ∅
           (serving (with_key "") (ok_json PNone)) []).
  - reflexivity.
  - right. reflexivity.
Defined.

Lemma empty_credential_keyword_witness :
  ChatTogether_init _ recording_client {[ "openai_api_key"%string := PStr "" ]}
    (serving (with_key "secret") (ok_json PNone)) []
  = (Raise (ValueError "TOGETHER_API_KEY is not set"), []).
Proof.
  apply (empty_credential_keyword recording_client
           {[ "openai_api_key"%string := PStr "" ]} (PStr "")).
  - reflexivity.
  - reflexivity.
Defined.

(** C9: the discovery path lets an empty credential through.  With the
    variable set to the empty string, [fetch_models] sends the request with
    the header [Authorization: Bearer ] and goes on to build a registry. *)
Theorem empty_credential_reaches_endpoint :
  fetch_models (serving (with_key "") (ok_json (PList sample_listing))) []
  = (Ok (PDict [(PStr "m1", limit 4096); (PStr "m2", limit 8192)]),
     [EnvRead "TOGETHER_API_KEY";
      HttpGet "https://api.together.xyz/v1/models"
        [("accept", "application/json");
         ("content-type", "application/json");
         ("Authorization", "Bearer ")]%string]).
Proof. reflexivity. Qed.

(** ** The customization schema *)

(** C8.  Whatever the Model Registry holds, the option list of the
    [model_name] setting is the list of the registry's keys. *)
Theorem model_name_options cfg reg :
  exists schema p,
    customization_config {| config := cfg; models := PDict reg |} = Ok schema /\
    setting_of "model_name" schema = Some (Preset p) /\
    options p = Some reg.*1.
Proof. by eexists _, _. Qed.

Example schema_sample :
  (schema ← customization_config
              {| config := ∅;
                 models := PDict [(PStr "m1", limit 4096);
                                  (PStr "m2", limit 8192)] |};
   Ok (setting_of "model_name" schema))
  = Ok (Some (Preset (with_options (preset Tstr) [PStr "m1"; PStr "m2"]))).
Proof. reflexivity. Qed.

Example fetch_models_sample :
  fetch_models (serving (with_key "k") (ok_json (PList sample_listing))) []
  = (Ok (PDict [(PStr "m1", limit 4096); (PStr "m2", limit 8192)]),
     discovery_log "k").
Proof. reflexivity. Qed.

Example fetch_models_unset :
  fetch_models (serving ∅ (ok_json (PList sample_listing))) []
  = (Raise (KeyError "TOGETHER_API_KEY"), [EnvRead "TOGETHER_API_KEY"]).
Proof. reflexivity. Qed.

Example sample_listing_consistent : consistent sample_listing.
Proof.
  intros i n n' model model' Hm Hm' Hf Hf'. unfold sample_listing in *.
  set_unfold.
  destruct Hm as [->|[->|[->|[]]]]; destruct Hm' as [->|[->|[->|[]]]];
    vm_compute in Hf, Hf'; congruence.
Qed.

(** ** Further properties of discovery *)

Lemma eq_str_true v s : eq_str v s = true <-> v = PStr s.
Proof.
  destruct v; simpl; try (split; [discriminate | by intros [=]]).
  rewrite String.eqb_eq. split; [by intros -> | by intros [= ->]].
Qed.

(** One turn of the comprehension: the entry's exception, or the entry's
    assignment followed by the remaining entries. *)
Lemma models_comprehension_step model acc rest :
  models_comprehension acc (model :: rest)
  = match entry_error model with
    | Some e => Raise e
    | None => models_comprehension (entry_update acc model) rest
    end.
Proof.
  unfold entry_update, is_chat.
  destruct model as [| | | | |d]; try reflexivity.
  simpl. destruct (dict_get d (PStr "type")) as [ty|]; [|reflexivity].
  simpl. destruct (eq_str ty "chat"); [|reflexivity].
  destruct (dict_get d (PStr "id")) as [k|]; [|reflexivity].
  simpl. destruct (dict_get d (PStr "context_length")) as [c|]; [|reflexivity].
  simpl. by destruct (hashable k).
Qed.

Lemma models_comprehension_ok ms :
  forall acc,
    is_ok (models_comprehension acc ms) = true <-> Forall acceptable ms.
Proof.
  induction ms as [|model ms IH]; intros acc.
  - split; [constructor | reflexivity].
  - rewrite models_comprehension_step, Forall_cons. unfold acceptable.
    destruct (entry_error model) as [e|].
    + split; [discriminate | by intros [? _]].
    + rewrite IH. split; [by split | by intros [_ ?]].
Qed.

Lemma models_comprehension_first_error good bad rest e :
  forall acc,
    Forall acceptable good ->
    entry_error bad = Some e ->
    models_comprehension acc (good ++ bad :: rest) = Raise e.
Proof.
  induction good as [|model good IH]; intros acc Hgood Hbad.
  - simpl app. by rewrite models_comprehension_step, Hbad.
  - apply Forall_cons in Hgood as [Hm Hgood].
    simpl app. rewrite models_comprehension_step, Hm. by apply IH.
Qed.

Lemma fmap_is_ok {A B} (f : A -> B) (r : result A) :
  is_ok (f <$> r) = is_ok r.
Proof. by destruct r. Qed.

(** X1.  Without a configured registry and with the credential variable
    unset, initialization raises [KeyError('TOGETHER_API_KEY')] as it is,
    after reading the environment and before any request. *)
Theorem discovery_without_credential cfg w tr :
  unconfigured cfg ->
  environ w !! CREDENTIAL_VAR = None ->
  ProviderChatTogether_init cfg w tr
  = (Raise (KeyError "TOGETHER_API_KEY"), tr ++ [EnvRead CREDENTIAL_VAR]).
Proof.
  intros Hcfg Henv.
  rewrite ProviderChatTogether_init_unconfigured by done.
  unfold fetch_models, try_except_RequestException, bind, os_environ_getitem.
  unfold CREDENTIAL_VAR in Henv. by rewrite Henv.
Qed.

Lemma discovery_without_credential_witness :
  ProviderChatTogether_init ∅ (serving ∅ (ok_json (PList sample_listing))) []
  = (Raise (KeyError "TOGETHER_API_KEY"), [] ++ [EnvRead CREDENTIAL_VAR]).
Proof.
  apply discovery_without_credential.
  - reflexivity.
  - reflexivity.
Defined.

(** X2.  All that initialization ever does to the world: nothing when a
    non-empty registry is configured; otherwise one read of the credential
    variable, followed, when the variable is set, by one GET of the
    model-listing URL carrying that credential, whatever comes back. *)
Theorem initialization_footprint cfg w tr :
  (ProviderChatTogether_init cfg w tr).2
  = tr ++ (if truthy (config_get cfg MODELS_KEY) then []
           else match environ w !! CREDENTIAL_VAR with
                | Some key => discovery_log key
                | None => [EnvRead CREDENTIAL_VAR]
                end).
Proof.
  destruct (truthy (config_get cfg MODELS_KEY)) eqn:Hcfg.
  - unfold ProviderChatTogether_init. rewrite Hcfg. simpl.
    by rewrite app_nil_r.
  - rewrite ProviderChatTogether_init_unconfigured by done.
    rewrite <- fetch_models_log.
    by destruct (fetch_models w tr) as [[fetched|e] tr'].
Qed.

(** X3.  Over a response that decodes to a non-empty list, discovery
    returns a registry exactly when every entry is acceptable: an object
    with a type which, if its type is "chat", also has a hashable id and a
    context_length. *)
Theorem discovery_succeeds_iff w key r ms tr :
  answers w key r ->
  ~ error_status r ->
  json r = Ok (PList ms) ->
  ms <> [] ->
  is_ok (fetch_models w tr).1 = true <-> Forall acceptable ms.
Proof.
  intros Hans Hst Hjson Hne.
  rewrite (fetch_models_list w key r ms tr) by done. simpl.
  rewrite fmap_is_ok. apply models_comprehension_ok.
Qed.

Lemma discovery_succeeds_iff_witness :
  is_ok (fetch_models
           (serving (with_key "k") (ok_json (PList sample_listing))) []).1
  = true
  <-> Forall acceptable sample_listing.
Proof.
  apply (discovery_succeeds_iff _ "k" (ok_json (PList sample_listing))).
  - split; reflexivity.
  - unfold error_status; simpl; lia.
  - reflexivity.
  - discriminate.
Defined.

(** X4.  Discovery stops at the first entry that is not acceptable and
    raises that entry's exception unchanged: a [KeyError] for a missing
    field, a [TypeError] for an entry that is no object or a chat id that
    cannot be a key.  Entries after it are not looked at. *)
Theorem discovery_first_error w key r good bad rest e tr :
  answers w key r ->
  ~ error_status r ->
  json r = Ok (PList (good ++ bad :: rest)) ->
  Forall acceptable good ->
  entry_error bad = Some e ->
  fetch_models w tr = (Raise e, tr ++ discovery_log key).
Proof.
  intros Hans Hst Hjson Hgood Hbad.
  rewrite (fetch_models_list w key r (good ++ bad :: rest) tr); try done.
  - by rewrite (models_comprehension_first_error good bad rest e).
  - by destruct good.
Qed.

Lemma discovery_first_error_witness :
  fetch_models
    (serving (with_key "k")
       (ok_json (PList ([model_object "img" 77 "image"] ++
                        list_id_entry :: [PInt 3])))) []
  = (Raise (TypeError Unhashable), [] ++ discovery_log "k").
Proof.
  apply (discovery_first_error _ "k"
           (ok_json (PList ([model_object "img" 77 "image"] ++
                            list_id_entry :: [PInt 3])))
           [model_object "img" 77 "image"] list_id_entry [PInt 3]).
  - split; reflexivity.
  - unfold error_status; simpl; lia.
  - reflexivity.
  - repeat constructor.
  - reflexivity.
Defined.

(** X5.  A body that decodes to a true value other than a list (an object,
    as OpenAI-style endpoints wrap their lists in, a string, a number,
    [true]) makes discovery raise a [TypeError] after the request; it is
    not reported as a discovery error. *)
Theorem non_list_body_type_error w key r body tr :
  answers w key r ->
  ~ error_status r ->
  json r = Ok body ->
  true_non_list body ->
  exists why,
    fetch_models w tr = (Raise (TypeError why), tr ++ discovery_log key).
Proof.
  intros [Henv Hget] Hst%raise_for_status_ok Hjson Hbody.
  run_discovery Henv Hget. rewrite Hst, Hjson. simpl.
  destruct Hbody as [|n Hn|s Hs|k v rest Hk]; simpl.
  - by exists NotIterable.
  - apply Z.eqb_neq in Hn. rewrite Hn. simpl. by exists NotIterable.
  - destruct s as [|c s]; [done|]. simpl. by exists BadIndex.
  - destruct k; try discriminate; simpl; eauto.
Qed.

Lemma non_list_body_type_error_witness :
  exists why,
    fetch_models
      (serving (with_key "k")
         (ok_json (PDict [(PStr "data", PList sample_listing)]))) []
    = (Raise (TypeError why), [] ++ discovery_log "k").
Proof.
  apply (non_list_body_type_error _ "k"
           (ok_json (PDict [(PStr "data", PList sample_listing)]))
           (PDict [(PStr "data", PList sample_listing)])).
  - split; reflexivity.
  - unfold error_status; simpl; lia.
  - reflexivity.
  - by apply non_list_object.
Defined.

(** X6.  Only [requests] exceptions are rewritten into the discovery
    error: any other exception raised by the request or by decoding the
    body leaves [fetch_models] as it is. *)
Theorem other_exceptions_propagate w key e tr :
  environ w !! CREDENTIAL_VAR = Some key ->
  not_request_exception e ->
  transport w models_url (headers key) = Raise e \/
  (exists r,
     transport w models_url (headers key) = Ok r /\
     ~ error_status r /\ json r = Raise e) ->
  fetch_models w tr = (Raise e, tr ++ discovery_log key).
Proof.
  intros Henv Hne [Hget | (r & Hget & Hst%raise_for_status_ok & Hjson)];
    run_discovery Henv Hget.
  - destruct e; try done. by destruct (Hne msg).
  - rewrite Hst, Hjson. simpl. destruct e; try done. by destruct (Hne msg).
Qed.

Lemma other_exceptions_propagate_witness :
  fetch_models (failing (with_key "k") (TypeError NotIterable)) []
  = (Raise (TypeError NotIterable), [] ++ discovery_log "k").
Proof.
  apply other_exceptions_propagate.
  - reflexivity.
  - intros msg. discriminate.
  - left. reflexivity.
Defined.

(** ** What a registry from discovery always looks like *)

Lemma key_eqb_refl k : hashable k = true -> key_eqb k k = true.
Proof.
  destruct k as [|b|n|s| |]; simpl; try done; intros _.
  - by destruct b.
  - apply Z.eqb_refl.
  - apply String.eqb_refl.
Qed.

Lemma dict_setitem_items d k0 x0 k x :
  hashable k0 = true ->
  (k, x) ∈ dict_setitem d k0 x0 ->
  (k, x) ∈ d \/ (x = x0 /\ key_eqb k k0 = true /\ (k = k0 \/ k ∈ d.*1)).
Proof.
  intros Hk0. induction d as [|[k1 v1] d IH]; simpl.
  - intros [= -> ->]%list_elem_of_singleton. right.
    split; [done|]. split; [by apply key_eqb_refl | by left].
  - destruct (key_eqb k1 k0) eqn:Hk1.
    + intros [[= -> ->]|Hin]%elem_of_cons.
      * right. split; [done|]. split; [done|]. right. by left.
      * left. by right.
    + intros [[= -> ->]|Hin]%elem_of_cons; [left; by left|].
      destruct (IH Hin) as [?|(-> & ? & [->|?])].
      * left. by right.
      * right. split; [done|]. split; [done|]. by left.
      * right. split; [done|]. split; [done|]. right. by right.
Qed.

Lemma dict_setitem_distinct d k x :
  keys_distinct d -> keys_distinct (dict_setitem d k x).
Proof.
  induction d as [|[k0 v0] d IH]; simpl.
  { intros _. split; [by intros k' ?%elem_of_nil | done]. }
  intros [Hhead Hrest].
  destruct (key_eqb k0 k) eqn:Hk0; simpl; [done|].
  split; [|by apply IH].
  intros k' [Hin| ->]%dict_setitem_keys; [by apply Hhead | done].
Qed.

Lemma from_chat_entry_app seen more k x :
  from_chat_entry seen k x -> from_chat_entry (seen ++ more) k x.
Proof.
  intros (model & k' & c & Hin & H). exists model, k', c.
  split; [|done]. apply elem_of_app. by left.
Qed.

Lemma entry_update_chat acc model :
  entry_error model = None ->
  is_chat model = true ->
  exists k c,
    getitem model "id" = Ok k /\
    getitem model "context_length" = Ok c /\
    hashable k = true /\
    entry_update acc model
    = dict_setitem acc k (PDict [(PStr "max_tokens", c)]).
Proof.
  unfold entry_update, is_chat.
  destruct model as [| | | | |d]; try discriminate.
  simpl. destruct (dict_get d (PStr "type")) as [ty|]; [|discriminate].
  intros Herr Hchat. rewrite Hchat in *.
  destruct (dict_get d (PStr "id")) as [k|]; [|discriminate].
  destruct (dict_get d (PStr "context_length")) as [c|]; [|discriminate].
  destruct (hashable k) eqn:Hk; [|discriminate].
  by exists k, c.
Qed.

(** The items built so far have keys that can be keys, pairwise
    different, and each stems from a chat entry already seen. *)
Lemma models_comprehension_items ms :
  forall acc seen reg,
    keys_distinct acc ->
    (forall k x, (k, x) ∈ acc ->
                 hashable k = true /\ from_chat_entry seen k x) ->
    models_comprehension acc ms = Ok reg ->
    keys_distinct reg /\
    (forall k x, (k, x) ∈ reg ->
                 hashable k = true /\ from_chat_entry (seen ++ ms) k x).
Proof.
  induction ms as [|model ms IH]; intros acc seen reg Hdist Hitems.
  - intros [= <-]. by rewrite app_nil_r.
  - rewrite models_comprehension_step.
    destruct (entry_error model) eqn:Herr; [discriminate|].
    replace (seen ++ model :: ms) with ((seen ++ [model]) ++ ms)
      by (by rewrite <- app_assoc).
    destruct (is_chat model) eqn:Hchat.
    + destruct (entry_update_chat acc model Herr Hchat)
        as (k0 & c & Hid & Hctx & Hk0 & ->).
      apply IH; [by apply dict_setitem_distinct|].
      intros k x [Hin|(-> & Heq & Hkey)]%dict_setitem_items; [| |done].
      * destruct (Hitems k x Hin). split; [done|].
        by apply from_chat_entry_app.
      * split.
        -- destruct Hkey as [->|Hkey]; [done|].
           apply list_elem_of_fmap in Hkey as ([k1 x1] & -> & Hin).
           by destruct (Hitems k1 x1 Hin).
        -- exists model, k0, c. split; [|done].
           apply elem_of_app. right. by apply list_elem_of_singleton.
    + unfold entry_update. rewrite Hchat. apply IH; [done|].
      intros k x Hin. destruct (Hitems k x Hin). split; [done|].
      by apply from_chat_entry_app.
Qed.

(** A run of [fetch_models] that returns went through every stage. *)
Lemma fetch_models_returns w tr v tr' :
  fetch_models w tr = (Ok v, tr') ->
  exists key r body items reg,
    environ w !! CREDENTIAL_VAR = Some key /\
    transport w models_url (headers key) = Ok r /\
    json r = Ok body /\
    py_iter body = Ok items /\
    models_comprehension [] items = Ok reg /\
    v = PDict reg /\
    tr' = tr ++ discovery_log key.
Proof.
  unfold fetch_models, try_except_RequestException, bind,
    os_environ_getitem, requests_get, lift, ret, raise, CREDENTIAL_VAR.
  destruct (environ w !! "TOGETHER_API_KEY") as [key|]; [|discriminate].
  rewrite discovery_log_app.
  destruct (transport w models_url (headers key)) as [r|[]] eqn:Hget;
    try discriminate.
  destruct (raise_for_status r) as [u|[]]; try discriminate.
  destruct (json r) as [body|[]] eqn:Hjson; try discriminate.
  destruct (negb (truthy body)); [discriminate|].
  destruct (py_iter body) as [items|[]] eqn:Hiter; try discriminate.
  destruct (models_comprehension [] items) as [reg|[]] eqn:Hrun;
    try discriminate.
  intros [= <- <-]. by exists key, r, body, items, reg.
Qed.

(** X7.  Whenever discovery returns, it has read the credential and made
    its one request, and the value is a dictionary whose keys are proper
    keys, pairwise different, and whose values all have the single
    attribute [max_tokens]. *)
Theorem returned_registry_shape w tr v tr' :
  fetch_models w tr = (Ok v, tr') ->
  exists key reg,
    environ w !! CREDENTIAL_VAR = Some key /\
    tr' = tr ++ discovery_log key /\
    v = PDict reg /\
    keys_distinct reg /\
    (forall k x, (k, x) ∈ reg ->
       hashable k = true /\ exists c, x = PDict [(PStr "max_tokens", c)]).
Proof.
  intros (key & r & body & items & reg & Henv & _ & _ & _ & Hrun & -> & ->)
    %fetch_models_returns.
  destruct (models_comprehension_items items [] [] reg) as [Hdist Hitems];
    [done | by intros k x ?%elem_of_nil | done |].
  exists key, reg. repeat (split; [done|]).
  intros k x Hin.
  destruct (Hitems k x Hin) as (Hk & model & k' & c & _ & _ & _ & _ & _ & ->).
  eauto.
Qed.

Lemma returned_registry_shape_witness :
  exists key reg,
    environ (serving (with_key "k") (ok_json (PList sample_listing)))
      !! CREDENTIAL_VAR = Some key /\
    discovery_log "k" = [] ++ discovery_log key /\
    PDict [(PStr "m1", limit 4096); (PStr "m2", limit 8192)] = PDict reg /\
    keys_distinct reg /\
    (forall k x, (k, x) ∈ reg ->
       hashable k = true /\ exists c, x = PDict [(PStr "max_tokens", c)]).
Proof.
  apply (returned_registry_shape
           (serving (with_key "k") (ok_json (PList sample_listing))) []).
  reflexivity.
Defined.

(** X8.  Every item of a registry that discovery returns stems from an
    entry of the response whose type is "chat": the key equals that entry's
    id and the value holds that entry's context_length.  This needs no
    assumption on how the entries are formed. *)
Theorem discovery_only_chat w key r ms tr reg tr' :
  answers w key r ->
  json r = Ok (PList ms) ->
  fetch_models w tr = (Ok (PDict reg), tr') ->
  forall k x, (k, x) ∈ reg -> from_chat_entry ms k x.
Proof.
  intros [Henv Hget] Hjson
    (key' & r' & body & items & reg' & Henv' & Hget' & Hjson' & Hiter
       & Hrun & [= ->] & _)%fetch_models_returns.
  rewrite Henv in Henv'. injection Henv' as <-.
  rewrite Hget in Hget'. injection Hget' as <-.
  rewrite Hjson in Hjson'. injection Hjson' as <-.
  injection Hiter as <-.
  destruct (models_comprehension_items ms [] [] reg') as [_ Hitems];
    [done | by intros k x ?%elem_of_nil | done |].
  intros k x Hin. by destruct (Hitems k x Hin).
Qed.

Lemma discovery_only_chat_witness :
  from_chat_entry sample_listing (PStr "m1") (limit 4096).
Proof.
  apply (discovery_only_chat
           (serving (with_key "k") (ok_json (PList sample_listing)))
           "k" (ok_json (PList sample_listing)) sample_listing []
           [(PStr "m1", limit 4096); (PStr "m2", limit 8192)]
           (discovery_log "k")).
  - split; reflexivity.
  - reflexivity.
  - reflexivity.
  - apply elem_of_cons. by left.
Defined.

(** ** The order of the registry *)

Lemma dict_setitem_keys_str d j x :
  ((PStr j ∈ d.*1) /\ (dict_setitem d (PStr j) x).*1 = d.*1) \/
  ((PStr j ∉ d.*1) /\ (dict_setitem d (PStr j) x).*1 = d.*1 ++ [PStr j]).
Proof.
  induction d as [|[k0 v0] d IH]; simpl.
  - right. split; [apply not_elem_of_nil | done].
  - destruct (key_eqb k0 (PStr j)) eqn:Hk0; simpl.
    + apply key_eqb_str_l in Hk0 as ->. left. split; [by left | done].
    + assert (k0 <> PStr j) as Hne.
      { intros ->. rewrite key_eqb_str, String.eqb_refl in Hk0.
        discriminate. }
      destruct IH as [[Hin Heq]|[Hout Heq]].
      * left. split; [by right | by f_equal].
      * right. split; [by intros [?|?]%elem_of_cons | by f_equal].
Qed.

Lemma elem_of_PStr_fmap j (ks : list string) : PStr j ∈ PStr <$> ks <-> j ∈ ks.
Proof.
  rewrite list_elem_of_fmap. split; [by intros (j' & [= <-] & ?) | eauto].
Qed.

Lemma filter_seen_l (ks : list string) j (l : list string) :
  j ∈ ks ->
  filter (fun y => y ∉ ks) (filter (fun y => y <> j) l)
  = filter (fun y => y ∉ ks) l.
Proof.
  intros Hj. rewrite list_filter_filter. apply list_filter_iff.
  intros y. split; [by intros [? _]|].
  intros Hy. split; [done|]. by intros ->.
Qed.

Lemma filter_seen_r (ks : list string) j (l : list string) :
  filter (fun y => y ∉ ks ++ [j]) l
  = filter (fun y => y ∉ ks) (filter (fun y => y <> j) l).
Proof.
  rewrite list_filter_filter. apply list_filter_iff.
  intros y. rewrite not_elem_of_app, list_elem_of_singleton. done.
Qed.

Lemma models_comprehension_keys ms :
  forall acc ks,
    Forall well_formed ms ->
    acc.*1 = PStr <$> ks ->
    exists reg,
      models_comprehension acc ms = Ok reg /\
      reg.*1
      = PStr <$> (ks ++ filter (fun y => y ∉ ks) (first_listed (chat_ids ms))).
Proof.
  induction ms as [|model ms IH]; intros acc ks Hwf Hacc.
  - exists acc. split; [done|]. simpl. by rewrite app_nil_r.
  - apply Forall_cons in Hwf as [[[[j n] t] Hf] Hwf].
    destruct (model_fields_getitem _ _ _ _ Hf) as (Hid & Hctx & Hty).
    simpl models_comprehension. rewrite Hty. simpl.
    unfold chat_ids. simpl omap. rewrite Hf. fold (chat_ids ms).
    destruct (String.eqb t "chat"); [|by apply IH].
    rewrite Hid, Hctx. simpl.
    set (acc' := dict_setitem acc (PStr j) _).
    assert (acc'.*1 = PStr <$> (if bool_decide (j ∈ ks) then ks
                                else ks ++ [j])) as Hacc'.
    { unfold acc'.
      destruct (dict_setitem_keys_str acc j (PDict [(PStr "max_tokens", PInt n)]))
        as [[Hin ->]|[Hout ->]];
        rewrite Hacc, elem_of_PStr_fmap in *.
      - by rewrite bool_decide_eq_true_2.
      - rewrite bool_decide_eq_false_2 by done. by rewrite fmap_app. }
    destruct (IH acc' _ Hwf Hacc') as (reg & Hrun & Hkeys).
    exists reg. split; [done|]. rewrite Hkeys. f_equal.
    destruct (decide (j ∈ ks)) as [Hin|Hout].
    + rewrite bool_decide_eq_true_2 by done.
      rewrite filter_cons_False by (by intros ?).
      by rewrite filter_seen_l.
    + rewrite bool_decide_eq_false_2 by done.
      rewrite filter_cons_True by done.
      by rewrite <- app_assoc, filter_seen_r.
Qed.

(** X9.  The registry lists the chat models in the order in which the
    response lists them, each id at the place of its first listing. *)
Theorem registry_key_order w key r ms tr :
  answers w key r ->
  ~ error_status r ->
  json r = Ok (PList ms) ->
  ms <> [] ->
  Forall well_formed ms ->
  exists reg,
    fetch_models w tr = (Ok (PDict reg), tr ++ discovery_log key) /\
    reg.*1 = PStr <$> first_listed (chat_ids ms).
Proof.
  intros Hans Hst Hjson Hne Hwf.
  destruct (models_comprehension_keys ms [] [] Hwf) as (reg & Hrun & Hkeys);
    [done|].
  exists reg. rewrite (fetch_models_list w key r ms tr), Hrun by done.
  split; [done|]. rewrite Hkeys. simpl. f_equal.
  clear. induction (first_listed (chat_ids ms)) as [|y l IH]; [done|].
  rewrite filter_cons_True by apply not_elem_of_nil. by rewrite IH.
Qed.

Lemma registry_key_order_witness :
  exists reg,
    fetch_models
      (serving (with_key "k")
         (ok_json (PList (sample_listing ++ listed_twice ++ sample_listing))))
      []
    = (Ok (PDict reg), [] ++ discovery_log "k") /\
    reg.*1
    = PStr <$> first_listed
                 (chat_ids (sample_listing ++ listed_twice ++ sample_listing)).
Proof.
  apply (registry_key_order _ "k"
           (ok_json (PList (sample_listing ++ listed_twice ++ sample_listing)))).
  - split; reflexivity.
  - unfold error_status; simpl; lia.
  - reflexivity.
  - discriminate.
  - repeat constructor; eexists; reflexivity.
Defined.

Example first_listed_sample :
  first_listed (chat_ids (sample_listing ++ listed_twice ++ sample_listing))
  = ["m1"; "m2"; "a"]%string.
Proof. reflexivity. Qed.

(** X10.  Entries of another type never influence the outcome: when every
    entry has a type, the comprehension gives over the whole response what
    it gives over its chat entries alone, registry or exception. *)
Theorem non_chat_entries_ignored ms :
  Forall has_type ms ->
  forall acc,
    models_comprehension acc ms
    = models_comprehension acc (filter (fun model => is_chat model = true) ms).
Proof.
  induction ms as [|model ms IH]; intros Hty acc; [done|].
  apply Forall_cons in Hty as [Hm Hty].
  destruct (is_chat model) eqn:Hchat.
  - rewrite filter_cons_True by done.
    rewrite !models_comprehension_step.
    destruct (entry_error model); [done|]. by apply IH.
  - rewrite filter_cons_False by (by rewrite Hchat).
    rewrite models_comprehension_step, <- IH by done.
    unfold entry_update. rewrite Hchat.
    unfold has_type, is_chat in *.
    destruct model as [| | | | |d]; try discriminate.
    simpl in *. destruct (dict_get d (PStr "type")) as [ty|]; [|discriminate].
    by rewrite Hchat.
Qed.

Lemma non_chat_entries_ignored_witness :
  models_comprehension [] sample_listing
  = models_comprehension []
      (filter (fun model => is_chat model = true) sample_listing).
Proof.
  apply (non_chat_entries_ignored sample_listing).
  repeat constructor.
Defined.

(** ** What the client adapter hands to the generic client *)

Section Adapter.
Context {client : Type} (ChatOpenAI_init : gmap string pyval -> M client).

(** X11.  With a true credential among the keyword arguments the adapter
    is transparent: the generic client is constructed with exactly the
    caller's keyword arguments, and the environment is not read, whatever
    it holds. *)
Theorem explicit_credential_passed kwargs v w tr :
  kwargs !! "openai_api_key" = Some v ->
  truthy v = true ->
  ChatTogether_init client ChatOpenAI_init kwargs w tr
  = ChatOpenAI_init kwargs w tr.
Proof.
  intros Hkw Hv. unfold ChatTogether_init, bind, ret.
  rewrite Hkw, Hv. simpl.
  by rewrite insert_delete_eq, insert_id.
Qed.

(** X12.  Without a credential among the keyword arguments and with a
    non-empty credential variable, the generic client is constructed with
    the caller's keyword arguments plus [openai_api_key] set to the
    variable's value, after one read of the environment. *)
Theorem environment_credential_passed kwargs key w tr :
  kwargs !! "openai_api_key" = None ->
  environ w !! CREDENTIAL_VAR = Some key ->
  key <> ""%string ->
  ChatTogether_init client ChatOpenAI_init kwargs w tr
  = ChatOpenAI_init (<["openai_api_key" := PStr key]> kwargs) w
      (tr ++ [EnvRead CREDENTIAL_VAR]).
Proof.
  intros Hkw Henv Hkey. unfold ChatTogether_init, bind, os_getenv, ret.
  unfold CREDENTIAL_VAR in Henv. rewrite Hkw, Henv. simpl.
  apply String.eqb_neq in Hkey. by rewrite Hkey.
Qed.

End Adapter.

Lemma explicit_credential_passed_witness :
  ChatTogether_init _ recording_client
    {[ "openai_api_key"%string := PStr "secret";
       "temperature"%string := PInt 1 ]}
    (serving (with_key "other") (ok_json PNone)) []
  = recording_client
      {[ "openai_api_key"%string := PStr "secret";
         "temperature"%string := PInt 1 ]}
      (serving (with_key "other") (ok_json PNone)) [].
Proof.
  apply (explicit_credential_passed recording_client _ (PStr "secret")).
  - reflexivity.
  - reflexivity.
Defined.

Lemma environment_credential_passed_witness :
  ChatTogether_init _ recording_client {[ "temperature"%string := PInt 1 ]}
    (serving (with_key "secret") (ok_json PNone)) []
  = recording_client
      (<["openai_api_key"%string := PStr "secret"]>
         {[ "temperature"%string := PInt 1 ]})
      (serving (with_key "secret") (ok_json PNone))
      ([] ++ [EnvRead CREDENTIAL_VAR]).
Proof.
  apply (environment_credential_passed recording_client).
  - reflexivity.
  - reflexivity.
  - discriminate.
Defined.

(** ** The fixed part of the customization schema *)

(** X14.  The Model Registry reaches the customization schema through the
    options of [model_name] only: every other setting is the same for every
    provider. *)
Theorem schema_fixed_settings self self' schema schema' name :
  customization_config self = Ok schema ->
  customization_config self' = Ok schema' ->
  name <> "model_name"%string ->
  setting_of name schema = setting_of name schema'.
Proof.
  unfold customization_config.
  destruct (available_models self) as [names|]; [|discriminate].
  destruct (available_models self') as [names'|]; [|discriminate].
  simpl. intros [= <-] [= <-] Hname.
  cbn [setting_of].
  destruct (String.eqb "verbose" name); [done|].
  destruct (String.eqb "model_name" name) eqn:Hm; [|done].
  apply String.eqb_eq in Hm. congruence.
Qed.

Lemma schema_fixed_settings_witness :
  setting_of "temperature" (schema_of {| config := ∅; models := PDict [] |})
  = setting_of "temperature"
      (schema_of {| config := ∅; models := PDict [(PStr "m1", limit 4096)] |}).
Proof.
  apply (schema_fixed_settings
           {| config := ∅; models := PDict [] |}
           {| config := ∅; models := PDict [(PStr "m1", limit 4096)] |}).
  - reflexivity.
  - reflexivity.
  - discriminate.
Defined.
